(** * derivePath: file-system route templates resolved against a node

    Shallow embedding of
    [packages/gatsby-plugin-page-creator/src/derive-path.ts].

    [derivePath] takes a page file path with [{Model.field}] parts and one
    node, looks every part up in the node, slugifies the value, puts it in
    place of the part and finally removes double forward slashes.  It talks
    to a [Reporter] when a value is missing.

    Layout of this file:
    - [JS]        the JavaScript values and the built-in string operations
                  the function uses;
    - [Imports]   what [derive-path.ts] imports ([lodash], [slugify],
                  [./path-utils]) as an interface;
    - [safeSlugify], [derivePath]   the two functions of the source file;
    - [Lodash], [Slugify], [PathUtils]   one implementation of the
                  interface, used to run the function on concrete inputs;
    - lemmas and theorems. *)

From Stdlib Require Import String Ascii List ZArith Bool Lia DecimalString.
Import ListNotations.
Open Scope string_scope.
#[local] Set Warnings "-register-all".

(* ===================================================================== *)
(** ** JavaScript values and built-ins                                     *)
(* ===================================================================== *)

Module JS.

(** A JavaScript value as GraphQL hands it to the plugin.  [VNum z]
    stands for the number [z] when it is a safe integer (at most 2^53 - 1
    in absolute value); fractions, larger numbers, [NaN] and the
    infinities have no counterpart here.  An object is its list of own
    properties in insertion order. *)
Inductive value : Type :=
| VUndefined
| VNull
| VBool (b : bool)
| VNum (z : Z)
| VStr (s : string)
| VArr (items : list value)
| VObj (fields : list (string * value)).

(** [Record<string, any>]: the own properties of the node, every name
    once. *)
Definition record : Type := list (string * value).

(** [v === undefined] *)
Definition is_undefined (v : value) : bool :=
  match v with VUndefined => true | _ => false end.

(** ToBoolean: [undefined], [null], [false], [0] and [""] are falsy. *)
Definition truthy (v : value) : bool :=
  match v with
  | VUndefined | VNull => false
  | VBool b => b
  | VNum z => negb (Z.eqb z 0)
  | VStr s => negb (String.eqb s "")
  | VArr _ | VObj _ => true
  end.

(** [a || b] *)
Definition or (a b : value) : value := if truthy a then a else b.

(** Own property of an object literal: [fields[k]]. *)
Fixpoint lookup (k : string) (fields : list (string * value)) : value :=
  match fields with
  | [] => VUndefined
  | (k', v) :: rest => if String.eqb k k' then v else lookup k rest
  end.

(** [Array.prototype.join] / the glue between pieces. *)
Fixpoint join (sep : string) (pieces : list string) : string :=
  match pieces with
  | [] => ""
  | [p] => p
  | p :: rest => p ++ sep ++ join sep rest
  end.

(** [String.prototype.split] with a one-character separator. *)
Fixpoint split (sep : ascii) (s : string) : list string :=
  match s with
  | "" => [""]
  | String c s' =>
      if Ascii.eqb c sep then "" :: split sep s'
      else match split sep s' with
           | p :: rest => String c p :: rest
           | [] => [String c ""]
           end
  end.

Definition string_of_Z (z : Z) : string :=
  NilZero.string_of_int (Z.to_int z).

Definition string_of_nat (n : nat) : string :=
  NilZero.string_of_uint (Nat.to_uint n).

(** [String(v)].  For a number this is the decimal form, as [String]
    writes a safe integer. *)
Fixpoint String_ (v : value) : string :=
  match v with
  | VUndefined => "undefined"
  | VNull => "null"
  | VBool true => "true"
  | VBool false => "false"
  | VNum z => string_of_Z z
  | VStr s => s
  | VArr items =>
      join ","
        (map (fun item =>
                match item with
                | VUndefined | VNull => ""
                | _ => String_ item
                end) items)
  | VObj _ => "[object Object]"
  end.

(** [s] starts with [p]: the rest of [s] after [p]. *)
Fixpoint strip_prefix (p s : string) : option string :=
  match p with
  | "" => Some s
  | String a p' =>
      match s with
      | "" => None
      | String b s' => if Ascii.eqb a b then strip_prefix p' s' else None
      end
  end.

(** First occurrence of [pat] in [s]: what is before it and after it. *)
Fixpoint search (pat s : string) : option (string * string) :=
  match strip_prefix pat s with
  | Some after => Some ("", after)
  | None =>
      match s with
      | "" => None
      | String c s' =>
          match search pat s' with
          | Some (before, after) => Some (String c before, after)
          | None => None
          end
      end
  end.

(** GetSubstitution for a string pattern (no capture groups): [$$] is a
    dollar sign, [$&] the matched text, [$`] the text before the match
    and [$'] the text after it; any other character stands for itself. *)
Fixpoint substitution (matched before after repl : string) : string :=
  match repl with
  | "" => ""
  | String c r =>
      if Ascii.eqb c "$" then
        match r with
        | String d r' =>
            if Ascii.eqb d "$" then
              String "$" (substitution matched before after r')
            else if Ascii.eqb d "&" then
              matched ++ substitution matched before after r'
            else if Ascii.eqb d "`" then
              before ++ substitution matched before after r'
            else if Ascii.eqb d "'" then
              after ++ substitution matched before after r'
            else String c (substitution matched before after r)
        | "" => String c (substitution matched before after r)
        end
      else String c (substitution matched before after r)
  end.

(** [s.replace(pat, repl)] with a string pattern: the first occurrence
    only. *)
Definition replace (s pat repl : string) : string :=
  match search pat s with
  | None => s
  | Some (before, after) =>
      before ++ substitution pat before after repl ++ after
  end.

(** [s.replace(/\/\/+/g, "/")]: every maximal run of two or more forward
    slashes becomes one slash.  [prev] tells that the character just
    written was a slash. *)
Fixpoint collapse_from (prev : bool) (s : string) : string :=
  match s with
  | "" => ""
  | String c s' =>
      if Ascii.eqb c "/" then
        if prev then collapse_from true s'
        else String "/" (collapse_from true s')
      else String c (collapse_from false s')
  end.

Definition collapse (s : string) : string := collapse_from false s.

(** [/\/\//.test(s)], with [prev] as above. *)
Fixpoint double_slash_from (prev : bool) (s : string) : bool :=
  match s with
  | "" => false
  | String c s' =>
      if Ascii.eqb c "/" then prev || double_slash_from true s'
      else double_slash_from false s'
  end.

Definition has_double_slash (s : string) : bool :=
  double_slash_from false s.

(** [s.includes(c)] for one character. *)
Fixpoint has_char (c : ascii) (s : string) : bool :=
  match s with
  | "" => false
  | String d s' => Ascii.eqb c d || has_char c s'
  end.

End JS.

Import JS.

(* ===================================================================== *)
(** ** The reporter and the module state                                   *)
(* ===================================================================== *)

(** A call on the [Reporter] object handed to [derivePath]. *)
Inductive ReporterCall : Type :=
| ReporterError (message : string)
| ReporterLog (message : string).

(** What [derivePath] can change outside its return value: the calls the
    reporter has received, oldest first, and the [lastIndex] field of the
    module-level regular expression [doubleForwardSlashes] (it carries the
    [g] flag). *)
Record World : Type := mkWorld {
  reporter_calls : list ReporterCall;
  doubleForwardSlashes_lastIndex : nat
}.

(** [reporter.error(message)] *)
Definition reporter_error (message : string) (w : World) : World :=
  mkWorld (reporter_calls w ++ [ReporterError message])
          (doubleForwardSlashes_lastIndex w).

(** [reporter.log(message)] *)
Definition reporter_log (message : string) (w : World) : World :=
  mkWorld (reporter_calls w ++ [ReporterLog message])
          (doubleForwardSlashes_lastIndex w).

(** [s.replace(doubleForwardSlashes, "/")].  [String.prototype.replace]
    with a global regular expression sets [lastIndex] to 0 before it
    starts and leaves it at 0, so the result does not depend on the value
    found there. *)
Definition replace_doubleForwardSlashes (s : string) (w : World)
  : string * World :=
  (collapse s, mkWorld (reporter_calls w) 0).

(* ===================================================================== *)
(** ** What derive-path.ts imports                                         *)
(* ===================================================================== *)

(** The imports of [derive-path.ts]: [_.get] of lodash, [slugify] of
    [@sindresorhus/slugify], the five functions of [./path-utils], and the
    built-in [JSON.stringify(node, null, 4)].  [derivePath] is written
    against them as an interface; one implementation follows below. *)
Class Imports : Type := {
  get : value -> string -> value;
  slugify : string -> string;
  JSON_stringify : value -> string;
  compose : (string -> string) -> (string -> string) -> string -> string;
  removeFileExtension : string -> string;
  extractFieldWithoutUnion : string -> string;
  extractAllCollectionSegments : string -> list string;
  switchToPeriodDelimiters : string -> string
}.

(* ===================================================================== *)
(** ** derive-path.ts                                                      *)
(* ===================================================================== *)

Section DerivePath.

Context {imports : Imports}.

(** [safeSlugify]: slugify piece by piece so that the slashes of a value
    such as [foo/bar] stay in the URL. *)
Definition safeSlugify (nodeValue : value) : string :=
  let input := String_ nodeValue in
  let tempArr := split "/" input in
  join "/" (map (fun v => slugify v) tempArr).

(** Step 3.a: [compose(extractFieldWithoutUnion,
    switchToPeriodDelimiters)(slugPart)]. *)
Definition key_of (slugPart : string) : string :=
  compose extractFieldWithoutUnion switchToPeriodDelimiters slugPart.

(** The two lookups of step 3.b, apart. *)
Definition nodes_lookup (node : record) (key : string) : value :=
  get (lookup "nodes" node) ("[0]" ++ key).

Definition direct_lookup (node : record) (key : string) : value :=
  get (VObj node) key.

(** Step 3.b:
    [_.get(node.nodes, `[0]${key}`) || _.get(node, key)]. *)
Definition node_value (node : record) (key : string) : value :=
  JS.or (nodes_lookup node key) (direct_lookup node key).

(** The message of step 3.c. *)
Definition not_found_message (slugPart key : string) : string :=
  "PageCreator: Could not find value in the following node for key "
  ++ slugPart ++ " (transformed to " ++ key ++ ")".

(** The two reporter calls of step 3.c. *)
Definition report_not_found (node : record) (slugPart : string)
  : list ReporterCall :=
  [ReporterError (not_found_message slugPart (key_of slugPart));
   ReporterLog (JSON_stringify (VObj node))].

(** The body of [slugParts.forEach]: the state is the variable
    [pathWithoutExtension] and the world. *)
Definition slugPart_step (node : record) (st : string * World)
  (slugPart : string) : string * World :=
  let (pathWithoutExtension, w) := st in
  let key := key_of slugPart in
  let nodeValue := node_value node key in
  if is_undefined nodeValue then
    (pathWithoutExtension,
     reporter_log (JSON_stringify (VObj node))
       (reporter_error (not_found_message slugPart key) w))
  else
    let value := safeSlugify nodeValue in
    (replace pathWithoutExtension slugPart value, w).

(** [derivePath(path, node, reporter)]: the derived path and the world it
    leaves. *)
Definition derivePath (path : string) (node : record) (w : World)
  : string * World :=
  let pathWithoutExtension := removeFileExtension path in
  let slugParts := extractAllCollectionSegments path in
  let (pathWithoutExtension', w') :=
    fold_left (slugPart_step node) slugParts (pathWithoutExtension, w) in
  replace_doubleForwardSlashes pathWithoutExtension' w'.

(** The test of step 3.c for one part. *)
Definition unresolved (node : record) (slugPart : string) : bool :=
  is_undefined (node_value node (key_of slugPart)).

(** The reporter calls the loop makes for a list of parts. *)
Definition calls_for (node : record) (slugParts : list string)
  : list ReporterCall :=
  flat_map
    (fun slugPart =>
       if unresolved node slugPart then report_not_found node slugPart
       else [])
    slugParts.

End DerivePath.

(* ===================================================================== *)
(** ** lodash: _.get                                                       *)
(* ===================================================================== *)

Module Lodash.

(** The characters that separate keys in a path string. *)
Definition is_delimiter (c : ascii) : bool :=
  Ascii.eqb c "." || Ascii.eqb c "[" || Ascii.eqb c "]".

(** [\w] *)
Definition is_word_char (c : ascii) : bool :=
  let n := nat_of_ascii c in
  ((48 <=? n) && (n <=? 57) || (65 <=? n) && (n <=? 90)
   || (97 <=? n) && (n <=? 122) || (n =? 95))%nat.

Fixpoint all_chars (p : ascii -> bool) (s : string) : bool :=
  match s with
  | "" => true
  | String c s' => p c && all_chars p s'
  end.

(** [stringToPath] for paths made of names, dots and [[n]] indexes: the
    keys are the maximal runs of characters other than [.], [[] and []].
    [cur] is the key being read.  Quoted keys in brackets and the empty
    keys of doubled dots are left out of this model. *)
Fixpoint keys_from (cur : string) (s : string) : list string :=
  match s with
  | "" => if String.eqb cur "" then [] else [cur]
  | String c s' =>
      if is_delimiter c then
        if String.eqb cur "" then keys_from "" s'
        else cur :: keys_from "" s'
      else keys_from (cur ++ String c "") s'
  end.

Definition stringToPath (path : string) : list string := keys_from "" path.

Fixpoint has_key (k : string) (fields : list (string * value)) : bool :=
  match fields with
  | [] => false
  | (k', _) :: rest => String.eqb k k' || has_key k rest
  end.

(** [reIsDeepProp]: the path has a period or a bracketed group.
    [inside] tells that an opening bracket is waiting for its closing
    one. *)
Fixpoint deep_from (inside : bool) (s : string) : bool :=
  match s with
  | "" => false
  | String c s' =>
      if Ascii.eqb c "." then true
      else if Ascii.eqb c "[" then deep_from true s'
      else if Ascii.eqb c "]" then inside || deep_from false s'
      else deep_from inside s'
  end.

(** [isKey]: the path is one property name when it is a plain word, is
    not deep, or is itself a property of the object. *)
Definition isKey (path : string) (object : value) : bool :=
  all_chars is_word_char path
  || negb (deep_from false path)
  || match object with VObj fields => has_key path fields | _ => false end.

Definition castPath (path : string) (object : value) : list string :=
  if isKey path object then [path] else stringToPath path.

(** Element of an array by the canonical decimal form of its index. *)
Fixpoint item_at (items : list value) (i : nat) (key : string) : value :=
  match items with
  | [] => VUndefined
  | x :: rest =>
      if String.eqb (string_of_nat i) key then x else item_at rest (S i) key
  end.

(** Character of a string by the canonical decimal form of its index. *)
Fixpoint char_at (s : string) (i : nat) (key : string) : value :=
  match s with
  | "" => VUndefined
  | String c rest =>
      if String.eqb (string_of_nat i) key then VStr (String c "")
      else char_at rest (S i) key
  end.

(** [object[key]] on own properties: fields of an object, items and
    [length] of an array, characters and [length] of a string.  What an
    object inherits from its prototype ([constructor], [toString], ...)
    is not modelled: such a key gives [undefined] here. *)
Definition property (object : value) (key : string) : value :=
  match object with
  | VObj fields => lookup key fields
  | VArr items =>
      if String.eqb key "length" then VNum (Z.of_nat (List.length items))
      else item_at items 0 key
  | VStr s =>
      if String.eqb key "length" then VNum (Z.of_nat (String.length s))
      else char_at s 0 key
  | _ => VUndefined
  end.

Definition is_nullish (v : value) : bool :=
  match v with VUndefined | VNull => true | _ => false end.

(** [baseGet]: follow the keys while the object is neither [null] nor
    [undefined]; the value counts only when every key was used. *)
Fixpoint walk (object : value) (keys : list string) : value :=
  match keys with
  | [] => object
  | k :: rest =>
      if is_nullish object then VUndefined else walk (property object k) rest
  end.

Definition baseGet (object : value) (path : string) : value :=
  match castPath path object with
  | [] => VUndefined
  | keys => walk object keys
  end.

(** [_.get(object, path)] *)
Definition get (object : value) (path : string) : value :=
  if is_nullish object then VUndefined else baseGet object path.

End Lodash.

(* ===================================================================== *)
(** ** @sindresorhus/slugify                                               *)
(* ===================================================================== *)

Module Slugify.

Definition is_upper (c : ascii) : bool :=
  let n := nat_of_ascii c in ((65 <=? n) && (n <=? 90))%nat.

Definition is_lower_or_digit (c : ascii) : bool :=
  let n := nat_of_ascii c in
  ((97 <=? n) && (n <=? 122) || (48 <=? n) && (n <=? 57))%nat.

(** Space, tab, line feed, carriage return. *)
Definition is_space (c : ascii) : bool :=
  let n := nat_of_ascii c in
  ((n =? 32) || (n =? 9) || (n =? 10) || (n =? 13))%nat.

Definition to_lower (c : ascii) : ascii :=
  if is_upper c then ascii_of_nat (nat_of_ascii c + 32) else c.

(** Lower-case the letters, keep letters and digits, write one hyphen for
    white space that stands between two kept characters, and drop every
    other character.  [started] tells that a character has been written,
    [gap] that white space was met since. *)
Fixpoint slug_from (started gap : bool) (s : string) : string :=
  match s with
  | "" => ""
  | String c s' =>
      let c' := to_lower c in
      if is_lower_or_digit c' then
        if started && gap then String "-" (String c' (slug_from true false s'))
        else String c' (slug_from true false s')
      else slug_from started (gap || is_space c) s'
  end.

(** Modelled from the spec: the slug algorithm of the [slugify] package
    (lower-casing, whitespace-to-hyphen, punctuation removal) on ASCII
    text; diacritic stripping needs the package's Unicode tables and is
    not modelled: bytes outside ASCII are dropped like punctuation. *)
Definition slugify (s : string) : string := slug_from false false s.

End Slugify.

(* ===================================================================== *)
(** ** ./path-utils                                                        *)
(* ===================================================================== *)

Module PathUtils.

Definition is_alphanumeric (c : ascii) : bool :=
  let n := nat_of_ascii c in
  ((48 <=? n) && (n <=? 57) || (65 <=? n) && (n <=? 90)
   || (97 <=? n) && (n <=? 122))%nat.

(** Modelled from the spec: [compose] of [./path-utils]; the source of
    that module is missing.  Step 3.a first removes the union and then
    turns the double underscores into periods, so the functions run in the
    order they are listed. *)
Definition compose (f g : string -> string) (x : string) : string :=
  g (f x).

(** Modelled from the spec: [removeFileExtension] of [./path-utils].  "A
    dot followed by alphanumeric characters at the end of the final path
    component is stripped." *)
Fixpoint removeFileExtension (path : string) : string :=
  match path with
  | "" => ""
  | String c rest =>
      if Ascii.eqb c "."
         && negb (String.eqb rest "")
         && Lodash.all_chars is_alphanumeric rest
      then ""
      else String c (removeFileExtension rest)
  end.

(** Scanner of [extractAllCollectionSegments]: [cur] is the part being
    read, from its opening brace on, or [None] outside a part. *)
Fixpoint segments_from (cur : option string) (s : string) : list string :=
  match s with
  | "" => []
  | String c s' =>
      match cur with
      | None =>
          if Ascii.eqb c "{" then segments_from (Some "{") s'
          else segments_from None s'
      | Some part =>
          if Ascii.eqb c "}" then (part ++ "}") :: segments_from None s'
          else segments_from (Some (part ++ String c "")) s'
      end
  end.

(** Modelled from the spec: [extractAllCollectionSegments] of
    [./path-utils].  "Scans for non-overlapping, non-nested bracketed
    regions; each matched region (including its delimiters) becomes one
    segment's raw text."  A region runs from an opening brace to the next
    closing brace.  [derivePath] calls [forEach] on the result, so the
    function gives a list for every path; a template with unbalanced or
    nested braces, which the analysis is to refuse, gets the regions this
    scan finds. *)
Definition extractAllCollectionSegments (path : string) : list string :=
  segments_from None path.

(** Text after the first period, or the whole text when it has none. *)
Fixpoint after_first_period (s : string) : option string :=
  match s with
  | "" => None
  | String c s' =>
      if Ascii.eqb c "." then Some s' else after_first_period s'
  end.

(** The text without one closing brace at its end. *)
Fixpoint drop_closing_brace (s : string) : string :=
  match s with
  | "" => ""
  | String c s' =>
      if Ascii.eqb c "}" && String.eqb s' "" then ""
      else String c (drop_closing_brace s')
  end.

Definition drop_opening_brace (s : string) : string :=
  match s with
  | String c s' => if Ascii.eqb c "{" then s' else s
  | "" => ""
  end.

(** [{Model.field__(Union)__bar}] gives [field__(Union)__bar]: the text
    between the delimiters, without the model name. *)
Definition extractField (filePart : string) : string :=
  let inner := drop_closing_brace (drop_opening_brace filePart) in
  match after_first_period inner with
  | Some field => field
  | None => inner
  end.

(** Split at every double underscore. *)
Fixpoint split_double_underscore (s : string) : list string :=
  match s with
  | "" => [""]
  | String c s' =>
      let keep :=
        match split_double_underscore s' with
        | p :: rest => String c p :: rest
        | [] => [String c ""]
        end in
      if Ascii.eqb c "_" then
        match s' with
        | String d s'' =>
            if Ascii.eqb d "_" then "" :: split_double_underscore s''
            else keep
        | "" => keep
        end
      else keep
  end.

Fixpoint ends_with (c : ascii) (s : string) : bool :=
  match s with
  | "" => false
  | String d s' =>
      match s' with
      | "" => Ascii.eqb c d
      | _ => ends_with c s'
      end
  end.

(** A path component wrapped in parentheses, such as [(File)]. *)
Definition is_union_marker (component : string) : bool :=
  match component with
  | String c rest => Ascii.eqb c "(" && ends_with ")" rest
  | "" => false
  end.

(** Modelled from the spec: [extractFieldWithoutUnion] of [./path-utils].
    "If a path component is wrapped in parentheses, that component is
    removed from the field path used for value lookup." *)
Definition extractFieldWithoutUnion (filePart : string) : string :=
  join "__"
    (filter (fun component => negb (is_union_marker component))
       (split_double_underscore (extractField filePart))).

(** Modelled from the spec: [switchToPeriodDelimiters] of [./path-utils].
    "A double-underscore token is treated as a path separator and
    rewritten to a single-dot separator." *)
Fixpoint switchToPeriodDelimiters (filePart : string) : string :=
  match filePart with
  | "" => ""
  | String c s' =>
      if Ascii.eqb c "_" then
        match s' with
        | String d s'' =>
            if Ascii.eqb d "_" then String "." (switchToPeriodDelimiters s'')
            else String c (switchToPeriodDelimiters s')
        | "" => String c (switchToPeriodDelimiters s')
        end
      else String c (switchToPeriodDelimiters s')
  end.

End PathUtils.

(* ===================================================================== *)
(** ** JSON.stringify(value, null, 4)                                      *)
(* ===================================================================== *)

Module Json.

Definition hex_digit (n : nat) : ascii :=
  if (n <? 10)%nat then ascii_of_nat (48 + n) else ascii_of_nat (87 + n).

Definition double_quote : ascii := ascii_of_nat 34.

Definition backslash : ascii := ascii_of_nat 92.

(** QuoteJSONString, one character. *)
Definition escape_char (c : ascii) : string :=
  let n := nat_of_ascii c in
  if (n =? 34)%nat then String backslash (String double_quote "")
  else if (n =? 92)%nat then String backslash (String backslash "")
  else if (n =? 10)%nat then String backslash "n"
  else if (n =? 13)%nat then String backslash "r"
  else if (n =? 9)%nat then String backslash "t"
  else if (n =? 8)%nat then String backslash "b"
  else if (n =? 12)%nat then String backslash "f"
  else if (n <? 32)%nat then
    String backslash "u00" ++ String (hex_digit (n / 16)) (String (hex_digit (n mod 16)) "")
  else String c "".

Fixpoint escape (s : string) : string :=
  match s with
  | "" => ""
  | String c s' => escape_char c ++ escape s'
  end.

Definition quote (s : string) : string :=
  String double_quote (escape s ++ String double_quote "").

Fixpoint spaces (n : nat) : string :=
  match n with
  | O => ""
  | S n' => String " " (spaces n')
  end.

Definition newline : string := String (ascii_of_nat 10) "".

(** Brackets around items, one per line, [indent] spaces deep. *)
Definition block (opening closing : string) (indent : nat)
  (items : list string) : string :=
  match items with
  | [] => opening ++ closing
  | _ =>
      opening ++ newline
      ++ join ("," ++ newline) (map (fun i => spaces (indent + 4) ++ i) items)
      ++ newline ++ spaces indent ++ closing
  end.

(** SerializeJSONProperty with a gap of four spaces.  An [undefined]
    item of an array is written [null]; an [undefined] property of an
    object is left out.  Properties come in the order of the list. *)
Fixpoint serialize (indent : nat) (v : value) {struct v} : string :=
  match v with
  | VUndefined | VNull => "null"
  | VBool true => "true"
  | VBool false => "false"
  | VNum z => string_of_Z z
  | VStr s => quote s
  | VArr items => block "[" "]" indent (map (serialize (indent + 4)) items)
  | VObj fields =>
      block "{" "}" indent
        (flat_map
           (fun kv =>
              match kv with
              | (_, VUndefined) => []
              | (k, v') => [quote k ++ ": " ++ serialize (indent + 4) v']
              end) fields)
  end.

(** [JSON.stringify(v, null, 4)] *)
Definition stringify (v : value) : string := serialize 0 v.

End Json.

(* ===================================================================== *)
(** ** The implementation used on concrete inputs                          *)
(* ===================================================================== *)

Definition packages : Imports := {|
  get := Lodash.get;
  slugify := Slugify.slugify;
  JSON_stringify := Json.stringify;
  compose := PathUtils.compose;
  removeFileExtension := PathUtils.removeFileExtension;
  extractFieldWithoutUnion := PathUtils.extractFieldWithoutUnion;
  extractAllCollectionSegments := PathUtils.extractAllCollectionSegments;
  switchToPeriodDelimiters := PathUtils.switchToPeriodDelimiters
|}.

(** [derivePath] with [packages], started with a reporter that has
    received nothing. *)
Definition fresh : World := mkWorld [] 0.

Definition derive (path : string) (node : record) : string * World :=
  @derivePath packages path node fresh.

Definition derived_path (path : string) (node : record) : string :=
  fst (derive path node).

Definition reported (path : string) (node : record) : list ReporterCall :=
  reporter_calls (snd (derive path node)).

(** A part as the templates have it: an opening brace, a body without
    braces, a closing brace. *)
Definition bracketed (s : string) : bool :=
  match s with
  | String c rest =>
      Ascii.eqb c "{"
      && PathUtils.ends_with "}" rest
      && negb (has_char "{" rest)
      && negb (has_char "}" (PathUtils.drop_closing_brace rest))
  | "" => false
  end.

(** The two records of the double-underscore example: [{a: {b: {c:
    "x"}}}] and the same item wrapped for the group field,
    [{nodes: [{a: {b: {c: "x"}}}]}]. *)
Definition plain_record : record :=
  [("a", VObj [("b", VObj [("c", VStr "x")])])].

Definition grouped_record : record :=
  [("nodes", VArr [VObj plain_record])].

(** [{nodes: [{count: 0}]}]: a group whose first item has a falsy
    value. *)
Definition zero_count_group : record :=
  [("nodes", VArr [VObj [("count", VNum 0)]])].

(* ===================================================================== *)
(** ** What step 4 is to do, said run by run                               *)
(* ===================================================================== *)

(** [n] forward slashes. *)
Fixpoint slashes (n : nat) : string :=
  match n with
  | O => ""
  | S n' => String "/" (slashes n')
  end.

Definition starts_with_slash (s : string) : bool :=
  match s with
  | String c _ => Ascii.eqb c "/"
  | "" => false
  end.

(** [collapsed s t]: [t] is [s] with every maximal run of forward slashes
    written as one slash and every other character as it is, in place. *)
Inductive collapsed : string -> string -> Prop :=
| collapsed_nil : collapsed "" ""
| collapsed_char (c : ascii) (s t : string) :
    Ascii.eqb c "/" = false ->
    collapsed s t ->
    collapsed (String c s) (String c t)
| collapsed_run (n : nat) (s t : string) :
    starts_with_slash s = false ->
    collapsed s t ->
    collapsed (slashes (S n) ++ s) (String "/" t).

(* ===================================================================== *)
(** ** Templates cut into texts and parts                                  *)
(* ===================================================================== *)

(** A template without its extension, cut at its parts: the text between
    two parts, or a part with its braces. *)
Inductive chunk : Type :=
| Text (s : string)
| Part (slugPart : string).

Definition chunk_text (c : chunk) : string :=
  match c with Text s => s | Part slugPart => slugPart end.

(** The template the chunks spell. *)
Definition flatten (chunks : list chunk) : string :=
  fold_right (fun c rest => chunk_text c ++ rest) "" chunks.

(** The parts among the chunks, in order. *)
Definition parts_of (chunks : list chunk) : list string :=
  flat_map (fun c => match c with Part slugPart => [slugPart] | Text _ => [] end)
    chunks.

(** A text has no opening brace, a part is bracketed. *)
Definition well_formed (c : chunk) : bool :=
  match c with
  | Text s => negb (has_char "{" s)
  | Part slugPart => bracketed slugPart
  end.

(** The path components: the pieces between slashes that are not
    empty. *)
Definition components (s : string) : list string :=
  filter (fun piece => negb (String.eqb piece "")) (split "/" s).

Section Rendering.

Context {imports : Imports}.

(** What step 3 is meant to leave of a chunk: a text as it is, a part
    without a value as it is, any other part as its slug. *)
Definition render_chunk (node : record) (c : chunk) : string :=
  match c with
  | Text s => s
  | Part slugPart =>
      if unresolved node slugPart then slugPart
      else safeSlugify (node_value node (key_of slugPart))
  end.

Definition render (node : record) (chunks : list chunk) : string :=
  fold_right (fun c rest => render_chunk node c ++ rest) "" chunks.

(** The number of parts step 3.c reports. *)
Definition count_unresolved (node : record) (slugParts : list string) : nat :=
  List.length (filter (unresolved node) slugParts).

(** No part that has a value is found starting inside [done]: a search
    for it in [done ++ rest] is the search in [rest]. *)
Definition skips (node : record) (done : string) : Prop :=
  forall slugPart rest,
    bracketed slugPart = true ->
    unresolved node slugPart = false ->
    search slugPart (done ++ rest)
    = match search slugPart rest with
      | Some (before, after) => Some (done ++ before, after)
      | None => None
      end.

End Rendering.

(* ===================================================================== *)
(** ** Strings                                                             *)
(* ===================================================================== *)

#[local] Arguments Ascii.eqb : simpl never.
#[local] Arguments String.eqb : simpl never.

Lemma append_nil_r (s : string) : s ++ "" = s.
Proof. induction s as [|c s IH]; simpl; [reflexivity | now rewrite IH]. Qed.

Lemma append_assoc (a b c : string) : (a ++ b) ++ c = a ++ (b ++ c).
Proof. induction a as [|x a IH]; simpl; [reflexivity | now rewrite IH]. Qed.

(** Two ways of cutting one string in two: one cut comes first. *)
Lemma append_eq_append (a b c d : string) :
  a ++ b = c ++ d ->
  (exists m, c = a ++ m /\ b = m ++ d) \/ (exists m, a = c ++ m /\ d = m ++ b).
Proof.
  revert c. induction a as [|x a IH]; intros c H; simpl in H.
  - left. exists c. split; [reflexivity | exact H].
  - destruct c as [|y c]; simpl in H.
    + right. exists (String x a). split; [reflexivity | symmetry; exact H].
    + injection H as Hxy H. subst y.
      destruct (IH c H) as [[m [Hc Hb]] | [m [Ha Hd]]].
      * left. exists m. simpl. now rewrite Hc.
      * right. exists m. simpl. now rewrite Ha.
Qed.

Lemma has_char_append (c : ascii) (a b : string) :
  has_char c (a ++ b) = has_char c a || has_char c b.
Proof.
  induction a as [|x a IH]; simpl; [reflexivity|].
  now rewrite IH, orb_assoc.
Qed.

(* ===================================================================== *)
(** ** Step 4: the double forward slashes                                  *)
(* ===================================================================== *)

Lemma collapse_from_no_double_slash (s : string) : forall prev,
  double_slash_from prev (collapse_from prev s) = false.
Proof.
  induction s as [|c s IH]; intros prev; simpl; [reflexivity|].
  destruct (Ascii.eqb c "/") eqn:Hc.
  - destruct prev; simpl; [apply IH|]. apply IH.
  - simpl. rewrite Hc. apply IH.
Qed.

Lemma collapse_no_double_slash (s : string) :
  has_double_slash (collapse s) = false.
Proof. apply collapse_from_no_double_slash. Qed.

(** What [double_slash_from] decides: no two slashes side by side. *)
Lemma double_slash_from_spec (s : string) : forall prev x y,
  double_slash_from prev s = false -> s <> x ++ "//" ++ y.
Proof.
  induction s as [|c s IH]; intros prev x y H E.
  - destruct x; discriminate.
  - simpl in H. destruct x as [|d x]; simpl in E.
    + injection E as Hc Es. subst c s. simpl in H.
      rewrite orb_true_r in H. discriminate.
    + injection E as Hc Es. subst d.
      destruct (Ascii.eqb c "/").
      * apply orb_false_elim in H. destruct H as [_ H]. exact (IH _ _ _ H Es).
      * exact (IH _ _ _ H Es).
Qed.

Lemma has_double_slash_spec (s x y : string) :
  has_double_slash s = false -> s <> x ++ "//" ++ y.
Proof. apply double_slash_from_spec. Qed.

(** Without double slashes there is nothing to collapse. *)
Lemma collapse_from_id (s : string) : forall prev,
  double_slash_from prev s = false -> collapse_from prev s = s.
Proof.
  induction s as [|c s IH]; intros prev H; simpl in *; [reflexivity|].
  destruct (Ascii.eqb c "/") eqn:Hc.
  - apply orb_false_elim in H. destruct H as [Hp H]. subst prev.
    apply Ascii.eqb_eq in Hc. subst c. now rewrite (IH _ H).
  - now rewrite (IH _ H).
Qed.

Lemma collapse_id (s : string) :
  has_double_slash s = false -> collapse s = s.
Proof. apply collapse_from_id. Qed.

(** Collapsing goes through a character that is not a slash. *)
Lemma collapse_from_append (a : string) : forall prev c b,
  Ascii.eqb c "/" = false ->
  collapse_from prev (a ++ String c b)
  = collapse_from prev a ++ String c (collapse_from false b).
Proof.
  induction a as [|x a IH]; intros prev c b Hc; simpl.
  - now rewrite Hc.
  - destruct (Ascii.eqb x "/").
    + destruct prev; simpl; now rewrite IH.
    + simpl. now rewrite IH.
Qed.

Lemma collapse_from_after_slashes (n : nat) (s : string) :
  collapse_from true (slashes n ++ s) = collapse_from true s.
Proof.
  induction n as [|n IH]; [reflexivity|].
  cbn [slashes append collapse_from]. now rewrite Ascii.eqb_refl.
Qed.

Lemma collapse_from_start (prev : bool) (s : string) :
  starts_with_slash s = false ->
  collapse_from prev s = collapse_from false s.
Proof.
  destruct s as [|c s]; [reflexivity|]. cbn [starts_with_slash].
  intros Hc. cbn [collapse_from]. now rewrite Hc.
Qed.

(** The relation allows one result only: the one of [collapse]. *)
Lemma collapsed_unique (s t : string) : collapsed s t -> t = collapse s.
Proof.
  induction 1 as [|c s t Hc _ IH | n s t Hs _ IH]; unfold collapse.
  - reflexivity.
  - cbn [collapse_from]. rewrite Hc. now rewrite IH.
  - cbn [slashes append collapse_from]. rewrite Ascii.eqb_refl.
    rewrite collapse_from_after_slashes, (collapse_from_start true s Hs).
    now rewrite IH.
Qed.

(** [collapse] writes every run of slashes as one slash and nothing
    else. *)
Lemma collapse_collapsed (s : string) : collapsed s (collapse s).
Proof.
  induction s as [|c s IH]; [constructor|].
  unfold collapse in *. cbn [collapse_from].
  destruct (Ascii.eqb c "/") eqn:Hc; [|now constructor].
  apply Ascii.eqb_eq in Hc. subst c.
  destruct s as [|d s1].
  - apply (collapsed_run 0 "" ""); [reflexivity | constructor].
  - destruct (Ascii.eqb d "/") eqn:Hd.
    + apply Ascii.eqb_eq in Hd. subst d.
      cbn [collapse_from] in IH. rewrite Ascii.eqb_refl in IH.
      cbn [collapse_from]. rewrite Ascii.eqb_refl.
      inversion IH as [|c' s' t' Hc' _ E1 E2 | n s0 t0 Hs0 Hst E1 E2].
      * subst c'. rewrite Ascii.eqb_refl in Hc'. discriminate Hc'.
      * exact (collapsed_run (S n) s0 _ Hs0 Hst).
    + apply (collapsed_run 0 (String d s1)); [exact Hd|].
      rewrite (collapse_from_start true (String d s1) Hd). exact IH.
Qed.

(* ===================================================================== *)
(** ** split and join                                                      *)
(* ===================================================================== *)

Lemma split_not_nil (sep : ascii) (s : string) : split sep s <> [].
Proof.
  destruct s as [|c s]; simpl; [discriminate|].
  destruct (Ascii.eqb c sep); [discriminate|].
  destruct (split sep s); discriminate.
Qed.

Lemma split_without_separator (sep : ascii) (s : string) :
  has_char sep s = false -> split sep s = [s].
Proof.
  induction s as [|c s IH]; simpl; intros H; [reflexivity|].
  apply orb_false_elim in H. destruct H as [Hc Hs].
  rewrite Ascii.eqb_sym, Hc. now rewrite (IH Hs).
Qed.

Lemma split_append (sep : ascii) (p rest : string) :
  has_char sep p = false ->
  split sep (p ++ String sep rest) = p :: split sep rest.
Proof.
  induction p as [|c p IH]; simpl; intros H.
  - now rewrite Ascii.eqb_refl.
  - apply orb_false_elim in H. destruct H as [Hc Hp].
    rewrite Ascii.eqb_sym, Hc. now rewrite (IH Hp).
Qed.

(** Pieces without the separator come back from the joined string. *)
Lemma split_join (sep : ascii) (pieces : list string) :
  pieces <> [] ->
  Forall (fun p => has_char sep p = false) pieces ->
  split sep (join (String sep "") pieces) = pieces.
Proof.
  induction pieces as [|p rest IH]; intros Hne Hall; [contradiction|].
  inversion Hall as [|? ? Hp Hrest]; subst.
  destruct rest as [|q rest].
  - simpl. now apply split_without_separator.
  - change (join (String sep "") (p :: q :: rest))
      with (p ++ String sep (join (String sep "") (q :: rest))).
    rewrite (split_append _ _ _ Hp). f_equal.
    apply IH; [discriminate | exact Hrest].
Qed.

(* ===================================================================== *)
(** ** replace with a string pattern                                       *)
(* ===================================================================== *)

Lemma strip_prefix_spec (p : string) : forall s rest,
  strip_prefix p s = Some rest -> s = p ++ rest.
Proof.
  induction p as [|a p IH]; intros s rest H; simpl in H.
  - now injection H as ->.
  - destruct s as [|b s]; [discriminate|].
    destruct (Ascii.eqb a b) eqn:Hab; [|discriminate].
    apply Ascii.eqb_eq in Hab. subst b. simpl. f_equal. now apply IH.
Qed.

Lemma search_spec (pat s : string) : forall before after,
  search pat s = Some (before, after) -> s = before ++ pat ++ after.
Proof.
  induction s as [|c s IH]; intros before after H.
  - cbn [search] in H.
    destruct (strip_prefix pat "") as [rest|] eqn:Hp; [|discriminate].
    injection H as Hb Ha. subst before after.
    exact (strip_prefix_spec _ _ _ Hp).
  - cbn [search] in H.
    destruct (strip_prefix pat (String c s)) as [rest|] eqn:Hp.
    + injection H as Hb Ha. subst before after.
      exact (strip_prefix_spec _ _ _ Hp).
    + destruct (search pat s) as [[b a]|] eqn:Hs; [|discriminate].
      injection H as Hb Ha. subst before after.
      simpl. f_equal. now apply IH.
Qed.

(** [replace] leaves the string alone or rewrites one occurrence of the
    pattern. *)
Lemma replace_cases (s pat repl : string) :
  replace s pat repl = s
  \/ exists before after x,
       s = before ++ pat ++ after
       /\ replace s pat repl = before ++ x ++ after.
Proof.
  unfold replace. destruct (search pat s) as [[before after]|] eqn:Hs.
  - right. exists before, after, (substitution pat before after repl).
    split; [now apply search_spec | reflexivity].
  - now left.
Qed.

(* ===================================================================== *)
(** ** Bracketed parts inside a string                                     *)
(* ===================================================================== *)

Lemma ends_with_drop (s : string) :
  PathUtils.ends_with "}" s = true ->
  s = PathUtils.drop_closing_brace s ++ "}".
Proof.
  induction s as [|c s IH]; simpl; intros H; [discriminate|].
  destruct s as [|d s].
  - apply Ascii.eqb_eq in H. subst c. reflexivity.
  - rewrite andb_false_r. simpl. f_equal. apply IH. exact H.
Qed.

(** The shape behind [bracketed]. *)
Lemma bracketed_shape (s : string) :
  bracketed s = true ->
  exists body,
    s = String "{" (body ++ "}")
    /\ has_char "{" (body ++ "}") = false
    /\ has_char "}" body = false.
Proof.
  destruct s as [|c rest]; simpl; [discriminate|]. intros H.
  apply andb_prop in H. destruct H as [H Hclose].
  apply andb_prop in H. destruct H as [H Hopen].
  apply andb_prop in H. destruct H as [Hc Hend].
  apply Ascii.eqb_eq in Hc. subst c.
  apply negb_true_iff in Hopen, Hclose.
  exists (PathUtils.drop_closing_brace rest).
  rewrite <- (ends_with_drop _ Hend). repeat split; assumption.
Qed.

Lemma first_close_unique (x : string) : forall y r r',
  has_char "}" x = false -> has_char "}" y = false ->
  x ++ String "}" r = y ++ String "}" r' -> x = y.
Proof.
  induction x as [|a x IH]; intros [|b y] r r' Hx Hy E; simpl in *.
  - reflexivity.
  - injection E as Hb _. subst b. rewrite Ascii.eqb_refl in Hy. discriminate.
  - injection E as Ha _. subst a. rewrite Ascii.eqb_refl in Hx. discriminate.
  - injection E as Hab E. subst b.
    apply orb_false_elim in Hx, Hy. f_equal.
    now apply (IH y r r').
Qed.

(** Two bracketed parts that start at the same place are the same. *)
Lemma bracketed_same_start (a b q q' : string) :
  bracketed a = true -> bracketed b = true ->
  a ++ q = b ++ q' -> a = b.
Proof.
  intros Ha Hb E.
  destruct (bracketed_shape _ Ha) as [ba [-> [_ Hca]]].
  destruct (bracketed_shape _ Hb) as [bb [-> [_ Hcb]]].
  simpl in E. injection E as E. rewrite !append_assoc in E. simpl in E.
  now rewrite (first_close_unique _ _ _ _ Hca Hcb E).
Qed.

(** No bracketed part starts inside another one. *)
Lemma bracketed_no_start_inside (a b m m' q r : string) :
  bracketed a = true -> bracketed b = true ->
  a = m ++ m' -> m <> "" -> m' <> "" -> b ++ q = m' ++ r -> False.
Proof.
  intros Ha Hb E Hm Hm' E'.
  destruct (bracketed_shape _ Ha) as [ba [-> [Hoa _]]].
  destruct (bracketed_shape _ Hb) as [bb [-> _]].
  destruct m as [|c m]; [contradiction|].
  destruct m' as [|d m']; [contradiction|].
  simpl in E, E'. injection E as _ E. injection E' as Hd _. subst d.
  rewrite E, has_char_append in Hoa. simpl in Hoa.
  rewrite orb_true_r in Hoa. discriminate.
Qed.

(** Rewriting an occurrence of one bracketed part leaves every occurrence
    of a different bracketed part in the string. *)
Lemma occurrence_kept (seg seg' pre post p q x : string) :
  bracketed seg = true -> bracketed seg' = true -> seg <> seg' ->
  pre ++ seg ++ post = p ++ seg' ++ q ->
  exists pre' post', p ++ x ++ q = pre' ++ seg ++ post'.
Proof.
  intros Hs Hs' Hne E.
  destruct (append_eq_append _ _ _ _ E) as [[m [Hp Hm]] | [m [Hpre Hm]]].
  - destruct (append_eq_append _ _ _ _ Hm) as [[m' [Hm1 Hpost]] | [m' [Hseg Hq]]].
    + subst p m. exists pre, (m' ++ x ++ q). now rewrite !append_assoc.
    + destruct m as [|c m].
      * simpl in Hseg. subst m'. exfalso. apply Hne.
        symmetry in Hq. exact (bracketed_same_start _ _ _ _ Hs Hs' Hq).
      * destruct m' as [|d m'].
        -- rewrite append_nil_r in Hseg. subst p. rewrite <- Hseg.
           exists pre, (x ++ q). now rewrite !append_assoc.
        -- exfalso.
           apply (bracketed_no_start_inside seg seg' (String c m)
                    (String d m') q post Hs Hs' Hseg); try discriminate.
           exact Hq.
  - destruct (append_eq_append _ _ _ _ Hm) as [[m' [Hm1 Hq]] | [m' [Hseg Hpost]]].
    + subst q. exists (p ++ x ++ m'), post. now rewrite !append_assoc.
    + destruct m as [|c m].
      * simpl in Hseg. subst m'. exfalso. apply Hne.
        exact (bracketed_same_start _ _ _ _ Hs Hs' Hpost).
      * destruct m' as [|d m'].
        -- simpl in Hpost. subst q. exists (p ++ x), post.
           now rewrite !append_assoc.
        -- exfalso.
           apply (bracketed_no_start_inside seg' seg (String c m)
                    (String d m') post q Hs' Hs Hseg); try discriminate.
           exact Hpost.
Qed.

(** Collapsing treats a bracketed part on its own. *)
Lemma collapse_around_bracketed (seg pre post : string) :
  bracketed seg = true ->
  collapse (pre ++ seg ++ post)
  = collapse pre ++ collapse seg ++ collapse post.
Proof.
  intros Hs. destruct (bracketed_shape _ Hs) as [body [-> _]].
  unfold collapse. simpl (String "{" _ ++ post).
  rewrite append_assoc. simpl ("}" ++ post).
  rewrite collapse_from_append by reflexivity.
  rewrite collapse_from_append by reflexivity.
  f_equal. simpl. f_equal.
  change (body ++ "}") with (body ++ String "}" "").
  rewrite collapse_from_append by reflexivity.
  rewrite append_assoc. reflexivity.
Qed.

(* ===================================================================== *)
(** ** The loop of step 3                                                  *)
(* ===================================================================== *)

Section Loop.

Context {imports : Imports}.

Lemma derivePath_unfold (path : string) (node : record) (w : World) :
  derivePath path node w
  = replace_doubleForwardSlashes
      (fst (fold_left (slugPart_step node)
              (extractAllCollectionSegments path)
              (removeFileExtension path, w)))
      (snd (fold_left (slugPart_step node)
              (extractAllCollectionSegments path)
              (removeFileExtension path, w))).
Proof.
  unfold derivePath.
  now destruct (fold_left _ _ _) as [p w'].
Qed.

Lemma derivePath_path (path : string) (node : record) (w : World) :
  fst (derivePath path node w)
  = collapse (fst (fold_left (slugPart_step node)
                     (extractAllCollectionSegments path)
                     (removeFileExtension path, w))).
Proof. now rewrite derivePath_unfold. Qed.

(** A lookup that finds nothing either way leaves the part unresolved. *)
Lemma unresolved_when_both_undefined (node : record) (slugPart : string) :
  nodes_lookup node (key_of slugPart) = VUndefined ->
  direct_lookup node (key_of slugPart) = VUndefined ->
  unresolved node slugPart = true.
Proof.
  intros Hn Hd. unfold unresolved, node_value, JS.or.
  now rewrite Hn, Hd.
Qed.

(** When step 3.c takes a part as not found: the lookup inside [nodes]
    gave a falsy value and the direct lookup gave [undefined]. *)
Lemma unresolved_iff (node : record) (slugPart : string) :
  unresolved node slugPart = true
  <-> truthy (nodes_lookup node (key_of slugPart)) = false
      /\ direct_lookup node (key_of slugPart) = VUndefined.
Proof.
  unfold unresolved, node_value, JS.or.
  destruct (truthy (nodes_lookup node (key_of slugPart))) eqn:Ht.
  - split; [|intros [H _]; discriminate H].
    intros Hu. destruct (nodes_lookup node (key_of slugPart));
      simpl in Ht, Hu; discriminate.
  - split.
    + intros Hu. split; [reflexivity|].
      now destruct (direct_lookup node (key_of slugPart)).
    + intros [_ ->]. reflexivity.
Qed.

(** The path the loop builds depends on the values found only: not on the
    world, and not on the rest of the node. *)
Lemma loop_path_ext (n1 n2 : record) (slugParts : list string) :
  Forall (fun slugPart =>
            node_value n1 (key_of slugPart) = node_value n2 (key_of slugPart))
         slugParts ->
  forall p w1 w2,
    fst (fold_left (slugPart_step n1) slugParts (p, w1))
    = fst (fold_left (slugPart_step n2) slugParts (p, w2)).
Proof.
  induction 1 as [|slugPart rest Hv _ IH]; intros p w1 w2; [reflexivity|].
  cbn [fold_left]. unfold slugPart_step at 2 4. rewrite Hv.
  destruct (is_undefined (node_value n2 (key_of slugPart))); apply IH.
Qed.

(** The calls the loop adds to the reporter. *)
Lemma loop_calls (node : record) (slugParts : list string) : forall p w,
  reporter_calls (snd (fold_left (slugPart_step node) slugParts (p, w)))
  = (reporter_calls w ++ calls_for node slugParts)%list.
Proof.
  induction slugParts as [|slugPart rest IH]; intros p w.
  - simpl. now rewrite app_nil_r.
  - cbn [fold_left calls_for flat_map]. unfold slugPart_step at 2.
    unfold unresolved.
    destruct (is_undefined (node_value node (key_of slugPart))).
    + rewrite IH. unfold reporter_log, reporter_error, report_not_found.
      cbn [reporter_calls]. now rewrite <- !app_assoc.
    + rewrite IH. reflexivity.
Qed.

Lemma derivePath_calls (path : string) (node : record) (w : World) :
  reporter_calls (snd (derivePath path node w))
  = (reporter_calls w
     ++ calls_for node (extractAllCollectionSegments path))%list.
Proof.
  rewrite derivePath_unfold. unfold replace_doubleForwardSlashes.
  cbn [snd reporter_calls]. apply loop_calls.
Qed.

Lemma calls_for_app (node : record) (l1 l2 : list string) :
  calls_for node (l1 ++ l2)%list
  = (calls_for node l1 ++ calls_for node l2)%list.
Proof. unfold calls_for. apply flat_map_app. Qed.

(** An unresolved bracketed part that stands in the path stays there
    through the loop. *)
Lemma loop_keeps_unresolved (node : record) (slugPart : string) :
  bracketed slugPart = true ->
  unresolved node slugPart = true ->
  forall slugParts p w,
    forallb bracketed slugParts = true ->
    (exists pre post, p = pre ++ slugPart ++ post) ->
    exists pre post,
      fst (fold_left (slugPart_step node) slugParts (p, w))
      = pre ++ slugPart ++ post.
Proof.
  intros Hb Hu. induction slugParts as [|other rest IH]; intros p w Hall Hin.
  - exact Hin.
  - cbn [forallb] in Hall. apply andb_prop in Hall. destruct Hall as [Ho Hrest].
    cbn [fold_left]. unfold slugPart_step at 2.
    destruct (is_undefined (node_value node (key_of other))) eqn:Hother.
    + now apply IH.
    + apply IH; [exact Hrest|].
      assert (Hne : slugPart <> other).
      { intros ->. unfold unresolved in Hu. congruence. }
      destruct Hin as [pre [post ->]].
      destruct (replace_cases (pre ++ slugPart ++ post) other
                  (safeSlugify (node_value node (key_of other))))
        as [-> | [before [after [x [Hocc ->]]]]].
      * now exists pre, post.
      * exact (occurrence_kept _ _ _ _ _ _ x Hb Ho Hne Hocc).
Qed.

End Loop.

(* ===================================================================== *)
(** ** Properties of derivePath for every implementation of the imports   *)
(* ===================================================================== *)

Section Properties.

Context {imports : Imports}.

(** C8. Whatever the template and the record, and so also when a value
    is the empty string or starts or ends with a slash: the path that
    [derivePath] returns is the path step 3 leaves with every run of
    forward slashes written as one slash and nothing else changed, and it
    has no two forward slashes side by side. *)
Theorem derivePath_collapses_slashes (path : string) (node : record)
  (w : World) :
  collapsed
    (fst (fold_left (slugPart_step node)
            (extractAllCollectionSegments path)
            (removeFileExtension path, w)))
    (fst (derivePath path node w))
  /\ has_double_slash (fst (derivePath path node w)) = false.
Proof.
  rewrite derivePath_path. split.
  - apply collapse_collapsed.
  - apply collapse_no_double_slash.
Qed.

(** C9. [derivePath] is deterministic: the path it returns for a template
    and a record is the same whatever the reporter has received before
    and whatever [lastIndex] the shared regular expression was left
    with. *)
Theorem derivePath_deterministic (path : string) (node : record)
  (w1 w2 : World) :
  fst (derivePath path node w1) = fst (derivePath path node w2).
Proof.
  rewrite !derivePath_path. f_equal. apply loop_path_ext.
  apply Forall_forall. reflexivity.
Qed.

(** C3, amended. For a template without bracketed parts [derivePath]
    returns, whatever the record, the template without its extension and
    with its double forward slashes collapsed; when the template has no
    double forward slash this is the template without its extension,
    unchanged. *)
Theorem derivePath_without_parts (path : string) (node : record)
  (w : World) :
  extractAllCollectionSegments path = [] ->
  fst (derivePath path node w) = collapse (removeFileExtension path)
  /\ (has_double_slash (removeFileExtension path) = false ->
      fst (derivePath path node w) = removeFileExtension path).
Proof.
  intros Hnone. rewrite derivePath_path, Hnone. cbn [fold_left fst].
  split; [reflexivity | apply collapse_id].
Qed.

(** C2, amended. For a part whose field path yields no defined value
    under either lookup, [derivePath] makes two reporter calls, in this
    order: one [error] call that names the raw part and its key, and one
    [log] call with the serialized record.  The parts before and after
    it are processed as usual, their calls come before and after.  The
    function returns a path and nothing that marks a failure. *)
Theorem derivePath_reports_unresolved (path : string) (node : record)
  (w : World) (before after : list string) (slugPart : string) :
  extractAllCollectionSegments path = (before ++ slugPart :: after)%list ->
  nodes_lookup node (key_of slugPart) = VUndefined ->
  direct_lookup node (key_of slugPart) = VUndefined ->
  reporter_calls (snd (derivePath path node w))
  = (reporter_calls w
     ++ calls_for node before
     ++ [ReporterError (not_found_message slugPart (key_of slugPart));
         ReporterLog (JSON_stringify (VObj node))]
     ++ calls_for node after)%list.
Proof.
  intros Hparts Hn Hd.
  rewrite derivePath_calls, Hparts, calls_for_app. do 2 f_equal.
  change (calls_for node (slugPart :: after))
    with ((if unresolved node slugPart
           then report_not_found node slugPart else [])
          ++ calls_for node after)%list.
  now rewrite (unresolved_when_both_undefined _ _ Hn Hd).
Qed.

(** C10. When a part of the template yields no defined value under
    either lookup, [derivePath] still returns a path, and the raw text of
    that part stands in it, changed by the collapse of double forward
    slashes only.  The template is well formed: its parts are bracketed
    texts without braces inside, and they stand in the template without
    its extension. *)
Theorem derivePath_keeps_unresolved (path : string) (node : record)
  (w : World) (slugPart : string) :
  In slugPart (extractAllCollectionSegments path) ->
  forallb bracketed (extractAllCollectionSegments path) = true ->
  (exists pre post, removeFileExtension path = pre ++ slugPart ++ post) ->
  nodes_lookup node (key_of slugPart) = VUndefined ->
  direct_lookup node (key_of slugPart) = VUndefined ->
  exists pre post,
    fst (derivePath path node w) = pre ++ collapse slugPart ++ post.
Proof.
  intros Hin Hall Hocc Hn Hd.
  assert (Hb : bracketed slugPart = true).
  { rewrite forallb_forall in Hall. now apply Hall. }
  pose proof (unresolved_when_both_undefined _ _ Hn Hd) as Hu.
  destruct (loop_keeps_unresolved node slugPart Hb Hu
              (extractAllCollectionSegments path)
              (removeFileExtension path) w Hall Hocc) as [pre [post E]].
  rewrite derivePath_path, E, (collapse_around_bracketed _ _ _ Hb).
  now exists (collapse pre), (collapse post).
Qed.

(** C4. [safeSlugify] turns the value into a string (a number into its
    digits), splits it at the slashes, slugifies every piece and joins
    the pieces with slashes.  With a [slugify] that writes no slash, the
    pieces of the result are the slugified pieces of the value, as many
    as the value has; ["a/b"] gives two pieces with one slash between
    them. *)
Theorem safeSlugify_pieces :
  (forall s, has_char "/" (slugify s) = false) ->
  forall nodeValue,
    split "/" (safeSlugify nodeValue)
    = map slugify (split "/" (String_ nodeValue))
    /\ List.length (split "/" (safeSlugify nodeValue))
       = List.length (split "/" (String_ nodeValue))
    /\ safeSlugify (VStr "a/b") = slugify "a" ++ "/" ++ slugify "b".
Proof.
  intros Hslug nodeValue.
  assert (E : split "/" (safeSlugify nodeValue)
              = map slugify (split "/" (String_ nodeValue))).
  { unfold safeSlugify. apply split_join.
    - intros Hnil. apply map_eq_nil in Hnil.
      exact (split_not_nil _ _ Hnil).
    - apply Forall_forall. intros p Hp. apply in_map_iff in Hp.
      destruct Hp as [s [<- _]]. apply Hslug. }
  split; [exact E|]. split; [|reflexivity].
  now rewrite E, length_map.
Qed.

End Properties.

(* ===================================================================== *)
(** ** The modelled slugify writes no slash                                *)
(* ===================================================================== *)

Lemma kept_char_not_slash (c : ascii) :
  Slugify.is_lower_or_digit c = true -> Ascii.eqb "/" c = false.
Proof.
  destruct c as [[] [] [] [] [] [] [] []]; vm_compute; intros H;
    first [reflexivity | discriminate H].
Qed.

Lemma slug_from_no_slash (s : string) : forall started gap,
  has_char "/" (Slugify.slug_from started gap s) = false.
Proof.
  induction s as [|c s IH]; intros started gap; [reflexivity|].
  cbn [Slugify.slug_from].
  destruct (Slugify.is_lower_or_digit (Slugify.to_lower c)) eqn:Hk.
  - pose proof (kept_char_not_slash _ Hk) as Hc.
    destruct (started && gap); cbn [has_char]; rewrite Hc, IH; reflexivity.
  - apply IH.
Qed.

Lemma slugify_no_slash (s : string) :
  has_char "/" (Slugify.slugify s) = false.
Proof. apply slug_from_no_slash. Qed.

(* ===================================================================== *)
(** ** derivePath on concrete templates and records                        *)
(* ===================================================================== *)

(** C6. The template [products/{Product.name}.js] and the record
    [{id: "1", name: "Veggie Burger"}] give [products/veggie-burger]. *)
Theorem derive_veggie_burger :
  derived_path "products/{Product.name}.js"
    [("id", VStr "1"); ("name", VStr "Veggie Burger")]
  = "products/veggie-burger".
Proof. vm_compute. reflexivity. Qed.

(** C7. The template [blog/{MarkdownRemark.parent__(File)__name}.js] and
    the record [{id: "2", parent: {name: "Learning Gatsby"}}] give
    [blog/learning-gatsby]; the key used for the lookup is [parent.name],
    without the union marker [(File)]. *)
Theorem derive_learning_gatsby :
  derived_path "blog/{MarkdownRemark.parent__(File)__name}.js"
    [("id", VStr "2"); ("parent", VObj [("name", VStr "Learning Gatsby")])]
  = "blog/learning-gatsby"
  /\ @key_of packages "{MarkdownRemark.parent__(File)__name}" = "parent.name".
Proof. split; vm_compute; reflexivity. Qed.

(** C1, on the failing input.  In [{nodes: [{count: 0}]}] the lookup
    inside the first item of [nodes] yields the defined value 0, yet
    [derivePath] treats the part [{Product.count}] as not found: it calls
    the reporter and leaves the part in the path.  The same value found
    directly on the record is used. *)
Theorem derive_zero_count_group :
  @nodes_lookup packages zero_count_group "count" = VNum 0
  /\ derive "products/{Product.count}.js" zero_count_group
     = ("products/{Product.count}",
        mkWorld
          [ReporterError
             "PageCreator: Could not find value in the following node for key {Product.count} (transformed to count)";
           ReporterLog (Json.stringify (VObj zero_count_group))]
          0)
  /\ derived_path "products/{Product.count}.js" [("count", VNum 0)]
     = "products/0".
Proof. repeat split; vm_compute; reflexivity. Qed.

(** The reading of C2 this file refutes: one reporter call for the one
    unresolved part. *)
Lemma derive_two_reporter_calls :
  reported "products/{Product.name}.js" [("id", VStr "1")]
  = [ReporterError
       "PageCreator: Could not find value in the following node for key {Product.name} (transformed to name)";
     ReporterLog (Json.stringify (VObj [("id", VStr "1")]))]
  /\ ~ (exists call,
          reported "products/{Product.name}.js" [("id", VStr "1")] = [call]).
Proof.
  split; [vm_compute; reflexivity|].
  intros [call H]. vm_compute in H. discriminate H.
Qed.

Lemma derivePath_reports_unresolved_witness :
  reporter_calls
    (snd (@derivePath packages "products/{Product.name}.js"
            [("id", VStr "1")] fresh))
  = (reporter_calls fresh
     ++ @calls_for packages [("id", VStr "1")] []
     ++ [ReporterError
           (not_found_message "{Product.name}"
              (@key_of packages "{Product.name}"));
         ReporterLog (Json.stringify (VObj [("id", VStr "1")]))]
     ++ @calls_for packages [("id", VStr "1")] [])%list.
Proof.
  apply (derivePath_reports_unresolved (imports := packages)
           "products/{Product.name}.js" [("id", VStr "1")] fresh [] []
           "{Product.name}"); reflexivity.
Defined.

(** The template [a//b.js] has no bracketed part and comes back as
    [a/b], not as [a//b]. *)
Lemma derive_static_double_slash :
  PathUtils.extractAllCollectionSegments "a//b.js" = []
  /\ PathUtils.removeFileExtension "a//b.js" = "a//b"
  /\ derived_path "a//b.js" [] = "a/b"
  /\ derived_path "a//b.js" [] <> PathUtils.removeFileExtension "a//b.js".
Proof.
  repeat split; try (vm_compute; reflexivity).
  vm_compute. discriminate.
Qed.

Lemma derivePath_without_parts_witness :
  fst (@derivePath packages "image/[...].js" [] fresh)
  = collapse (PathUtils.removeFileExtension "image/[...].js")
  /\ (has_double_slash (PathUtils.removeFileExtension "image/[...].js")
      = false ->
      fst (@derivePath packages "image/[...].js" [] fresh)
      = PathUtils.removeFileExtension "image/[...].js").
Proof.
  apply (derivePath_without_parts (imports := packages)
           "image/[...].js" [] fresh).
  reflexivity.
Defined.

Lemma derivePath_keeps_unresolved_witness :
  exists pre post,
    fst (@derivePath packages "products/{Product.name}/info.js"
           [("id", VStr "1")] fresh)
    = pre ++ collapse "{Product.name}" ++ post.
Proof.
  apply (derivePath_keeps_unresolved (imports := packages)
           "products/{Product.name}/info.js" [("id", VStr "1")] fresh
           "{Product.name}").
  - left. reflexivity.
  - reflexivity.
  - exists "products/", "/info". reflexivity.
  - reflexivity.
  - reflexivity.
Defined.

Lemma safeSlugify_pieces_witness :
  split "/" (@safeSlugify packages (VStr "Foo Bar/Baz"))
  = map Slugify.slugify (split "/" (String_ (VStr "Foo Bar/Baz")))
  /\ List.length (split "/" (@safeSlugify packages (VStr "Foo Bar/Baz")))
     = List.length (split "/" (String_ (VStr "Foo Bar/Baz")))
  /\ @safeSlugify packages (VStr "a/b")
     = Slugify.slugify "a" ++ "/" ++ Slugify.slugify "b".
Proof.
  exact (safeSlugify_pieces (imports := packages) slugify_no_slash
           (VStr "Foo Bar/Baz")).
Defined.

(** A number goes through [String] first: 2020 gives ["2020"]. *)
Example safeSlugify_number :
  @safeSlugify packages (VNum 2020) = "2020"
  /\ @safeSlugify packages (VStr "a/b") = "a/b"
  /\ @safeSlugify packages (VStr "Docs/Getting Started") = "docs/getting-started".
Proof. repeat split; vm_compute; reflexivity. Qed.

(** An empty value leaves two slashes side by side before step 4 and one
    after it. *)
Example derive_empty_value :
  derived_path "a/{M.x}/b.js" [("x", VStr "")] = "a/b".
Proof. vm_compute. reflexivity. Qed.

(** A template with a second part, [{M.nodes}], tells the two records of
    the double-underscore example apart. *)
Lemma derive_records_differ :
  @key_of packages "{M.a__b__c}" = "a.b.c"
  /\ derived_path "{M.a__b__c}/{M.nodes}.js" plain_record = "x/{M.nodes}"
  /\ derived_path "{M.a__b__c}/{M.nodes}.js" grouped_record
     = "x/object-object"
  /\ derived_path "{M.a__b__c}/{M.nodes}.js" plain_record
     <> derived_path "{M.a__b__c}/{M.nodes}.js" grouped_record.
Proof.
  repeat split; try (vm_compute; reflexivity).
  vm_compute. discriminate.
Qed.

(** C5, amended. A part with the field path [a.b.c], written
    [a__b__c], gets the value ["x"] from the record [{a: {b: {c: "x"}}}]
    and from the record [{nodes: [{a: {b: {c: "x"}}}]}] alike.  The two
    records give the same path for every template each of whose parts
    gets the same value from both records, or none from either, whatever
    implements the imports; a part that one record resolves and the other
    does not, such as [{M.nodes}], tells them apart. *)
Theorem derive_plain_and_grouped :
  (@key_of packages "{Field.a__b__c}" = "a.b.c"
   /\ @node_value packages plain_record "a.b.c" = VStr "x"
   /\ @node_value packages grouped_record "a.b.c" = VStr "x")
  /\ forall (imports : Imports) (path : string) (w1 w2 : World),
       Forall
         (fun slugPart =>
            node_value plain_record (key_of slugPart)
            = node_value grouped_record (key_of slugPart))
         (extractAllCollectionSegments path) ->
       fst (derivePath path plain_record w1)
       = fst (derivePath path grouped_record w2).
Proof.
  split.
  - repeat split; vm_compute; reflexivity.
  - intros imports path w1 w2 Hall.
    rewrite !derivePath_path. f_equal. now apply loop_path_ext.
Qed.

Lemma derive_plain_and_grouped_witness :
  derived_path "items/{Field.a__b__c}/{Field.a__b}/{Field.id}.js"
    plain_record
  = derived_path "items/{Field.a__b__c}/{Field.a__b}/{Field.id}.js"
      grouped_record.
Proof.
  apply (proj2 derive_plain_and_grouped packages
           "items/{Field.a__b__c}/{Field.a__b}/{Field.id}.js" fresh fresh).
  apply Forall_forall. intros slugPart Hin. vm_compute in Hin.
  destruct Hin as [<- | [<- | [<- | []]]]; vm_compute; reflexivity.
Defined.

(** The three parts of that template: a value, an object, nothing. *)
Example derive_three_parts :
  derived_path "items/{Field.a__b__c}/{Field.a__b}/{Field.id}.js"
    plain_record
  = "items/x/object-object/{Field.id}".
Proof. vm_compute. reflexivity. Qed.

(* ===================================================================== *)
(** ** More on the strings of step 3 and step 4                            *)
(* ===================================================================== *)

Lemma strip_prefix_app (p rest : string) :
  strip_prefix p (p ++ rest) = Some rest.
Proof.
  induction p as [|a p IH]; simpl; [reflexivity|].
  now rewrite Ascii.eqb_refl.
Qed.

Lemma search_at_start (pat s after : string) :
  strip_prefix pat s = Some after -> search pat s = Some ("", after).
Proof. intros H. destruct s; cbn [search]; now rewrite H. Qed.

Lemma search_later (pat : string) (c : ascii) (s : string) :
  strip_prefix pat (String c s) = None ->
  search pat (String c s)
  = match search pat s with
    | Some (before, after) => Some (String c before, after)
    | None => None
    end.
Proof. intros H. cbn [search]. now rewrite H. Qed.

(** A replacement without a dollar sign is written as it is. *)
Lemma substitution_literal (matched before after repl : string) :
  has_char "$" repl = false ->
  substitution matched before after repl = repl.
Proof.
  induction repl as [|c r IH]; intros H; [reflexivity|].
  cbn [has_char] in H. apply orb_false_elim in H. destruct H as [Hc Hr].
  cbn [substitution]. rewrite Ascii.eqb_sym, Hc. now rewrite (IH Hr).
Qed.

Lemma has_char_join (c : ascii) (sep : string) (pieces : list string) :
  has_char c sep = false ->
  Forall (fun p => has_char c p = false) pieces ->
  has_char c (join sep pieces) = false.
Proof.
  intros Hsep. induction 1 as [|p rest Hp Hrest IH]; [reflexivity|].
  destruct rest as [|q rest]; [exact Hp|].
  change (join sep (p :: q :: rest)) with (p ++ sep ++ join sep (q :: rest)).
  now rewrite !has_char_append, Hp, Hsep, IH.
Qed.

Lemma split_cons_other (sep c : ascii) (s : string) :
  Ascii.eqb c sep = false ->
  split sep (String c s)
  = String c (hd "" (split sep s)) :: tl (split sep s).
Proof.
  intros Hc. cbn [split]. rewrite Hc.
  destruct (split sep s) eqn:E; [|reflexivity].
  now destruct (split_not_nil _ _ E).
Qed.

(** The pieces of two strings with a separator between them. *)
Lemma split_around_separator (sep : ascii) (a b : string) :
  split sep (a ++ String sep b) = (split sep a ++ split sep b)%list.
Proof.
  induction a as [|c a IH]; simpl.
  - now rewrite Ascii.eqb_refl.
  - destruct (Ascii.eqb c sep); [now rewrite IH|].
    rewrite IH. destruct (split sep a) eqn:E; [|reflexivity].
    now destruct (split_not_nil _ _ E).
Qed.

Lemma join_app (sep : string) (l1 l2 : list string) :
  l1 <> [] -> l2 <> [] ->
  join sep (l1 ++ l2) = join sep l1 ++ sep ++ join sep l2.
Proof.
  induction l1 as [|p rest IH]; intros H1 H2; [contradiction|].
  destruct rest as [|q rest].
  - destruct l2; [contradiction | reflexivity].
  - change (join sep ((p :: q :: rest) ++ l2))
      with (p ++ sep ++ join sep ((q :: rest) ++ l2)).
    rewrite IH by (discriminate || assumption).
    change (join sep (p :: q :: rest)) with (p ++ sep ++ join sep (q :: rest)).
    now rewrite !append_assoc.
Qed.

(** Step 4 on the pieces between slashes: from a state in which no slash
    was just written the first piece stays and the later pieces that are
    not empty stay; after a slash the pieces that are not empty stay. *)
Lemma collapse_from_pieces (s : string) :
  (hd "" (split "/" (collapse_from false s)) = hd "" (split "/" s)
   /\ filter (fun p => negb (String.eqb p ""))
        (tl (split "/" (collapse_from false s)))
      = filter (fun p => negb (String.eqb p "")) (tl (split "/" s)))
  /\ components (collapse_from true s) = components s.
Proof.
  unfold components.
  induction s as [|c s [[IHh IHt] IHc]]; [now split|].
  destruct (Ascii.eqb c "/") eqn:Hc.
  - apply Ascii.eqb_eq in Hc. subst c.
    cbn [collapse_from split]. rewrite !Ascii.eqb_refl.
    cbn [split hd tl filter]. rewrite !Ascii.eqb_refl. cbn [hd tl filter].
    change (negb ("" =? "")%string) with false. cbv iota.
    repeat split; exact IHc.
  - cbn [collapse_from]. rewrite Hc.
    rewrite !(split_cons_other _ _ _ Hc). cbn [hd tl filter].
    rewrite IHh, IHt. repeat split.
Qed.

Lemma digits_no_slash (d : Decimal.uint) :
  has_char "/" (NilEmpty.string_of_uint d) = false.
Proof. induction d; cbn [NilEmpty.string_of_uint has_char]; auto. Qed.

Lemma string_of_Z_no_slash (z : Z) : has_char "/" (string_of_Z z) = false.
Proof.
  unfold string_of_Z, NilZero.string_of_int.
  destruct (Z.to_int z) as [d|d]; unfold NilZero.string_of_uint;
    destruct d; cbn [has_char]; try reflexivity;
    try (rewrite digits_no_slash; reflexivity).
Qed.

(* ===================================================================== *)
(** ** Step 3 on a well-formed template                                    *)
(* ===================================================================== *)

Section Substitution.

Context {imports : Imports}.

Variable node : record.

Lemma skips_nil : skips node "".
Proof.
  intros slugPart rest _ _. simpl.
  now destruct (search slugPart rest) as [[before after]|].
Qed.

Lemma skips_app (d1 d2 : string) :
  skips node d1 -> skips node d2 -> skips node (d1 ++ d2).
Proof.
  intros H1 H2 slugPart rest Hb Hu.
  rewrite append_assoc, (H1 _ _ Hb Hu), (H2 _ _ Hb Hu).
  destruct (search slugPart rest) as [[before after]|]; [|reflexivity].
  now rewrite append_assoc.
Qed.

(** A bracketed part does not start at a character other than the
    opening brace. *)
Lemma strip_prefix_other (slugPart : string) (c : ascii) (s : string) :
  bracketed slugPart = true -> Ascii.eqb "{" c = false ->
  strip_prefix slugPart (String c s) = None.
Proof.
  intros Hb Hc. destruct (bracketed_shape _ Hb) as [body [-> _]].
  cbn [strip_prefix]. now rewrite Hc.
Qed.

Lemma skips_text (s : string) : has_char "{" s = false -> skips node s.
Proof.
  induction s as [|c s IH]; intros H; [apply skips_nil|].
  cbn [has_char] in H. apply orb_false_elim in H. destruct H as [Hc Hs].
  intros slugPart rest Hb Hu.
  change (String c s ++ rest) with (String c (s ++ rest)).
  rewrite (search_later _ _ _ (strip_prefix_other _ _ _ Hb Hc)).
  rewrite (IH Hs _ _ Hb Hu).
  now destruct (search slugPart rest) as [[before after]|].
Qed.

(** A part without a value is not mistaken for one that has a value. *)
Lemma skips_unresolved (other : string) :
  bracketed other = true -> unresolved node other = true ->
  skips node other.
Proof.
  intros Ho Hou slugPart rest Hb Hu.
  destruct (bracketed_shape _ Ho) as [body [E [Hopen _]]].
  assert (Hnone : strip_prefix slugPart (other ++ rest) = None).
  { destruct (strip_prefix slugPart (other ++ rest)) as [after|] eqn:Hp;
      [|reflexivity].
    apply strip_prefix_spec in Hp.
    pose proof (bracketed_same_start _ _ _ _ Ho Hb Hp) as Hsame.
    subst slugPart. congruence. }
  rewrite E in *. change (String "{" (body ++ "}") ++ rest)
    with (String "{" ((body ++ "}") ++ rest)) in *.
  rewrite (search_later _ _ _ Hnone).
  rewrite (skips_text _ Hopen _ _ Hb Hu).
  now destruct (search slugPart rest) as [[before after]|].
Qed.

(** With a [slugify] that never writes a character, [safeSlugify] does
    not write it either, the slash apart. *)
Lemma safeSlugify_no_char (c : ascii) (nodeValue : value) :
  (forall s, has_char c (slugify s) = false) ->
  Ascii.eqb c "/" = false ->
  has_char c (safeSlugify nodeValue) = false.
Proof.
  intros Hslug Hc. unfold safeSlugify. apply has_char_join.
  - cbn [has_char]. now rewrite Hc.
  - apply Forall_forall. intros p Hp. apply in_map_iff in Hp.
    destruct Hp as [s [<- _]]. apply Hslug.
Qed.

Hypothesis slugify_no_dollar : forall s, has_char "$" (slugify s) = false.
Hypothesis slugify_no_brace : forall s, has_char "{" (slugify s) = false.

(** The loop on the parts of well-formed chunks, after a start of the
    string that no search stops in. *)
Lemma loop_renders (chunks : list chunk) : forall seen w,
  forallb well_formed chunks = true ->
  skips node seen ->
  fst (fold_left (slugPart_step node) (parts_of chunks)
         (seen ++ flatten chunks, w))
  = seen ++ render node chunks.
Proof.
  induction chunks as [|c chunks IH]; intros seen w Hwf Hseen; [reflexivity|].
  cbn [forallb] in Hwf. apply andb_prop in Hwf. destruct Hwf as [Hc Hwf].
  destruct c as [s | slugPart]; cbn [well_formed] in Hc.
  - apply negb_true_iff in Hc.
    cbn [parts_of flat_map flatten render fold_right chunk_text render_chunk
           app].
    fold (parts_of chunks) (flatten chunks) (render node chunks).
    rewrite <- !append_assoc.
    apply IH; [exact Hwf|]. apply skips_app; [exact Hseen|].
    now apply skips_text.
  - cbn [parts_of flat_map flatten render fold_right chunk_text render_chunk
           app fold_left].
    fold (parts_of chunks) (flatten chunks) (render node chunks).
    unfold slugPart_step at 2. fold (unresolved node slugPart).
    destruct (unresolved node slugPart) eqn:Hu.
    + rewrite <- !append_assoc.
      apply IH; [exact Hwf|]. apply skips_app; [exact Hseen|].
      now apply skips_unresolved.
    + unfold replace.
      rewrite (Hseen _ _ Hc Hu).
      rewrite (search_at_start _ _ _ (strip_prefix_app slugPart (flatten chunks))).
      rewrite substitution_literal
        by (apply safeSlugify_no_char; [exact slugify_no_dollar | reflexivity]).
      rewrite append_nil_r, <- !append_assoc.
      apply IH; [exact Hwf|]. apply skips_app; [exact Hseen|].
      apply skips_text.
      apply safeSlugify_no_char; [exact slugify_no_brace | reflexivity].
Qed.

End Substitution.

(* ===================================================================== *)
(** ** Further properties of derivePath and safeSlugify                    *)
(* ===================================================================== *)

Lemma slug_from_no_char (c : ascii) (s : string) : forall started gap,
  Slugify.is_lower_or_digit c = false -> Ascii.eqb c "-" = false ->
  has_char c (Slugify.slug_from started gap s) = false.
Proof.
  induction s as [|x s IH]; intros started gap Hc Hh; [reflexivity|].
  cbn [Slugify.slug_from].
  destruct (Slugify.is_lower_or_digit (Slugify.to_lower x)) eqn:Hk.
  - assert (Hx : Ascii.eqb c (Slugify.to_lower x) = false).
    { destruct (Ascii.eqb c (Slugify.to_lower x)) eqn:E; [|reflexivity].
      apply Ascii.eqb_eq in E. congruence. }
    destruct (started && gap); cbn [has_char];
      rewrite ?Hh, Hx, IH by assumption; reflexivity.
  - now apply IH.
Qed.

Section More.

Context {imports : Imports}.

Lemma calls_for_length (node : record) (slugParts : list string) :
  List.length (calls_for node slugParts)
  = 2 * count_unresolved node slugParts.
Proof.
  unfold count_unresolved.
  induction slugParts as [|p rest IH]; [reflexivity|].
  change (calls_for node (p :: rest))
    with ((if unresolved node p then report_not_found node p else [])
          ++ calls_for node rest)%list.
  cbn [filter]. destruct (unresolved node p).
  - rewrite length_app, IH. cbn [report_not_found List.length]. lia.
  - exact IH.
Qed.

Lemma calls_for_nil_iff (node : record) (slugParts : list string) :
  calls_for node slugParts = []
  <-> forallb (fun p => negb (unresolved node p)) slugParts = true.
Proof.
  induction slugParts as [|p rest IH]; [now split|].
  change (calls_for node (p :: rest))
    with ((if unresolved node p then report_not_found node p else [])
          ++ calls_for node rest)%list.
  cbn [forallb]. destruct (unresolved node p); cbn [negb andb].
  - split; discriminate.
  - exact IH.
Qed.

(** X1. [derivePath] only adds reporter calls, after the ones made
    before, and it adds two for every part it cannot resolve, counted
    with repetitions. *)
Theorem derivePath_calls_count (path : string) (node : record) (w : World) :
  firstn (List.length (reporter_calls w))
    (reporter_calls (snd (derivePath path node w)))
  = reporter_calls w
  /\ List.length (reporter_calls (snd (derivePath path node w)))
     = List.length (reporter_calls w)
       + 2 * count_unresolved node (extractAllCollectionSegments path).
Proof.
  rewrite derivePath_calls. split.
  - rewrite firstn_app, Nat.sub_diag, firstn_all. cbn [firstn].
    apply app_nil_r.
  - now rewrite length_app, calls_for_length.
Qed.

(** X2. [derivePath] makes no reporter call exactly when every part of
    the template has a truthy value inside the first item of [nodes] or a
    value other than [undefined] on the node itself. *)
Theorem derivePath_silent_iff (path : string) (node : record) (w : World) :
  reporter_calls (snd (derivePath path node w)) = reporter_calls w
  <-> forallb
        (fun slugPart =>
           truthy (nodes_lookup node (key_of slugPart))
           || negb (is_undefined (direct_lookup node (key_of slugPart))))
        (extractAllCollectionSegments path) = true.
Proof.
  rewrite derivePath_calls.
  assert (E : forall l : list ReporterCall,
             (reporter_calls w ++ l)%list = reporter_calls w <-> l = []).
  { intros l. split; [|intros ->; apply app_nil_r].
    intros H. rewrite <- (app_nil_r (reporter_calls w)) in H at 2.
    now apply app_inv_head in H. }
  rewrite E, calls_for_nil_iff.
  assert (F : forall p,
             negb (unresolved node p)
             = truthy (nodes_lookup node (key_of p))
               || negb (is_undefined (direct_lookup node (key_of p)))).
  { intros p. unfold unresolved, node_value, JS.or.
    destruct (truthy (nodes_lookup node (key_of p))) eqn:Ht; [|reflexivity].
    now destruct (nodes_lookup node (key_of p)). }
  assert (G : forall l,
             forallb (fun p => negb (unresolved node p)) l
             = forallb
                 (fun p =>
                    truthy (nodes_lookup node (key_of p))
                    || negb (is_undefined (direct_lookup node (key_of p))))
                 l).
  { induction l as [|p l IH]; [reflexivity|].
    cbn [forallb]. now rewrite F, IH. }
  rewrite G. reflexivity.
Qed.

(** X3. The item in [nodes] comes first: two records with the same
    [nodes] property give the same path when the first item of [nodes]
    has a truthy value for every part, whatever else the records hold. *)
Theorem derivePath_nodes_first (path : string) (n1 n2 : record)
  (w1 w2 : World) :
  lookup "nodes" n1 = lookup "nodes" n2 ->
  forallb (fun slugPart => truthy (nodes_lookup n1 (key_of slugPart)))
    (extractAllCollectionSegments path) = true ->
  fst (derivePath path n1 w1) = fst (derivePath path n2 w2).
Proof.
  intros Hnodes Hall. rewrite !derivePath_path. f_equal.
  apply loop_path_ext. apply Forall_forall. intros p Hp.
  rewrite forallb_forall in Hall. specialize (Hall p Hp).
  unfold node_value, JS.or, nodes_lookup in *.
  rewrite <- Hnodes. now rewrite Hall.
Qed.

(** X4. A value whose string form has no slash is slugified as one
    piece. *)
Theorem safeSlugify_without_slash (nodeValue : value) :
  has_char "/" (String_ nodeValue) = false ->
  safeSlugify nodeValue = slugify (String_ nodeValue).
Proof.
  intros H. unfold safeSlugify.
  now rewrite (split_without_separator _ _ H).
Qed.

(** X5. A number that is a safe integer, at most 2^53 - 1 in absolute
    value, is slugified as one piece: its decimal form.  (Beyond that
    range [String] of a number does not write the digits of the integer,
    and [VNum] does not stand for it.) *)
Theorem safeSlugify_of_number (z : Z) :
  (Z.abs z <= 9007199254740991)%Z ->
  safeSlugify (VNum z) = slugify (string_of_Z z).
Proof.
  intros _. unfold safeSlugify. cbn [String_].
  now rewrite (split_without_separator _ _ (string_of_Z_no_slash z)).
Qed.

(** X6. [safeSlugify] works on the two sides of a slash apart and keeps
    the slash, whatever [slugify] does. *)
Theorem safeSlugify_around_slash (a b : string) :
  safeSlugify (VStr (a ++ "/" ++ b))
  = safeSlugify (VStr a) ++ "/" ++ safeSlugify (VStr b).
Proof.
  unfold safeSlugify. cbn [String_].
  change (a ++ "/" ++ b) with (a ++ String "/" b).
  rewrite split_around_separator, map_app.
  apply join_app; intros H; apply map_eq_nil in H;
    exact (split_not_nil _ _ H).
Qed.

(** X7. Step 4 keeps the components of the path, in order: the pieces
    between slashes that are not empty. *)
Theorem replace_doubleForwardSlashes_components (s : string) (w : World) :
  components (fst (replace_doubleForwardSlashes s w)) = components s.
Proof.
  cbn [replace_doubleForwardSlashes fst]. unfold collapse, components.
  destruct (collapse_from_pieces s) as [[Hh Ht] _].
  destruct (split "/" (collapse_from false s)) as [|p ps] eqn:E1;
    [now destruct (split_not_nil _ _ E1)|].
  destruct (split "/" s) as [|q qs] eqn:E2;
    [now destruct (split_not_nil _ _ E2)|].
  cbn [hd tl] in Hh, Ht. subst q. cbn [filter]. now rewrite Ht.
Qed.

(** X8. On a well-formed template (texts without an opening brace
    between bracketed parts) and with a [slugify] that writes neither a
    dollar sign nor an opening brace, [derivePath] returns the template
    in which every part that has a value stands as its slug, every
    occurrence of a repeated part too, and every other part as it was,
    with the double forward slashes collapsed. *)
Theorem derivePath_renders (path : string) (node : record) (w : World)
  (chunks : list chunk) :
  (forall s, has_char "$" (slugify s) = false) ->
  (forall s, has_char "{" (slugify s) = false) ->
  removeFileExtension path = flatten chunks ->
  extractAllCollectionSegments path = parts_of chunks ->
  forallb well_formed chunks = true ->
  fst (derivePath path node w) = collapse (render node chunks).
Proof.
  intros Hd Hb Hpath Hparts Hwf.
  rewrite derivePath_path, Hpath, Hparts. f_equal.
  exact (loop_renders node Hd Hb chunks "" w Hwf (skips_nil node)).
Qed.

(** X9. When no part of the template has a value, nothing is
    substituted: the path is the template without its extension, with
    the double forward slashes collapsed. *)
Theorem derivePath_none_resolved (path : string) (node : record)
  (w : World) :
  forallb (unresolved node) (extractAllCollectionSegments path) = true ->
  fst (derivePath path node w) = collapse (removeFileExtension path).
Proof.
  intros Hall. rewrite derivePath_path. f_equal.
  generalize (removeFileExtension path) as p. revert w.
  induction (extractAllCollectionSegments path) as [|part rest IH];
    intros w p; [reflexivity|].
  cbn [forallb] in Hall. apply andb_prop in Hall. destruct Hall as [Hu Hrest].
  cbn [fold_left]. unfold slugPart_step at 2.
  fold (unresolved node part). rewrite Hu. now apply IH.
Qed.

End More.

Lemma derivePath_nodes_first_witness :
  fst (@derivePath packages "products/{Product.name}.js"
         [("nodes", VArr [VObj [("name", VStr "Burger")]]);
          ("name", VStr "Other")] fresh)
  = fst (@derivePath packages "products/{Product.name}.js"
           [("nodes", VArr [VObj [("name", VStr "Burger")]])] fresh).
Proof.
  apply (derivePath_nodes_first (imports := packages)); reflexivity.
Defined.

Lemma safeSlugify_without_slash_witness :
  @safeSlugify packages (VStr "Veggie Burger")
  = Slugify.slugify (String_ (VStr "Veggie Burger")).
Proof.
  apply (safeSlugify_without_slash (imports := packages)). reflexivity.
Defined.

Lemma derivePath_renders_witness :
  fst (@derivePath packages "blog/{Post.year}/{Post.slug}/{Post.year}.js"
         [("year", VNum 2020)] fresh)
  = collapse
      (@render packages [("year", VNum 2020)]
         [Text "blog/"; Part "{Post.year}"; Text "/"; Part "{Post.slug}";
          Text "/"; Part "{Post.year}"]).
Proof.
  apply (derivePath_renders (imports := packages)).
  - intros s. now apply slug_from_no_char.
  - intros s. now apply slug_from_no_char.
  - reflexivity.
  - reflexivity.
  - reflexivity.
Defined.

(** The year stands in both places, the part without a value stays. *)
Example derive_repeated_part :
  derived_path "blog/{Post.year}/{Post.slug}/{Post.year}.js"
    [("year", VNum 2020)]
  = "blog/2020/{Post.slug}/2020".
Proof. vm_compute. reflexivity. Qed.

Lemma derivePath_none_resolved_witness :
  fst (@derivePath packages "blog/{Post.year}/{Post.slug}.js"
         [("id", VStr "1")] fresh)
  = collapse (PathUtils.removeFileExtension "blog/{Post.year}/{Post.slug}.js").
Proof.
  apply (derivePath_none_resolved (imports := packages)). reflexivity.
Defined.

Lemma safeSlugify_of_number_witness :
  @safeSlugify packages (VNum (-2020))
  = Slugify.slugify (string_of_Z (-2020)).
Proof.
  apply (safeSlugify_of_number (imports := packages)). vm_compute.
  discriminate.
Defined.
